(** * EC11 rotary encoder driver (ec11TaoBao.py): quadrature decoding,
      detent accumulation and button debouncing.

    The class [EC11] of [ec11TaoBao.py] is embedded as a record of its
    mutable attributes and one function per method, with the state passed
    explicitly.  Python integers are unbounded, so every integer is a [Z];
    [<<] and [|] are [Z.shiftl] and [Z.lor].  The three [Pin] objects are
    the environment of the object: the level each [Pin.value()] call reads
    is an argument of the method that reads it, and so is the value of
    [time.ticks_ms()].  Indexing a list raises [IndexError] out of range,
    so [read_rotation] lives in a small exception monad. *)

From Stdlib Require Import ZArith List Lia Bool.
Import ListNotations.
Local Open Scope Z_scope.

(** ** Exceptions *)

Inductive exn : Type :=
| IndexError.

Inductive result (A : Type) : Type :=
| Ok (a : A)
| Raise (e : exn).

Arguments Ok {A} a.
Arguments Raise {A} e.

Definition bind {A B : Type} (m : result A) (f : A -> result B) : result B :=
  match m with
  | Ok a => f a
  | Raise e => Raise e
  end.

Notation "x <- m ;; k" := (bind m (fun x => k))
  (at level 61, m at next level, right associativity).

(** ** Python list indexing

    [l[i]] of a Python list: a negative index counts from the end, and an
    index outside [-len l, len l) raises [IndexError]. *)

Definition py_getitem (l : list Z) (i : Z) : result Z :=
  let n := Z.of_nat (length l) in
  let j := if i <? 0 then i + n else i in
  if (0 <=? j) && (j <? n)
  then match nth_error l (Z.to_nat j) with
       | Some v => Ok v
       | None => Raise IndexError
       end
  else Raise IndexError.

(** ** MicroPython tick arithmetic *)

(** Modelled from the spec: [time.ticks_ms] and [time.ticks_diff] belong to
    MicroPython's [time] module, not to this repository.  The spec calls
    the comparison of [read_button] a wraparound-safe subtraction of
    millisecond timestamps: tick values live in [0, TICKS_PERIOD) and their
    difference is the signed distance on that ring, in
    [-TICKS_PERIOD/2, TICKS_PERIOD/2).  The period is the one of
    MicroPython's 32-bit ports. *)
Definition TICKS_PERIOD : Z := 2 ^ 30.

Definition ticks_diff (ticks1 ticks2 : Z) : Z :=
  Z.land (ticks1 - ticks2 + TICKS_PERIOD / 2) (TICKS_PERIOD - 1)
  - TICKS_PERIOD / 2.

(** ** The object state *)

(** The attributes of an [EC11] that its methods assign.  [state_table] is
    assigned once in [__init__] and never again, so it is the constant
    below; the pins are the environment. *)
Record EC11 : Type := mkEC11 {
  last_state : Z;
  counter : Z;
  step_accumulator : Z;
  last_button : Z;
  button_debounce_time : Z
}.

Definition state_table : list Z :=
  [0; -1; 1; 0; 1; 0; 0; -1; -1; 0; 0; 1; 0; 1; -1; 0].

(** [(pin_a.value() << 1) | pin_b.value()] *)
Definition pack (a b : Z) : Z := Z.lor (Z.shiftl a 1) b.

(** [EC11.__init__], given the levels read on the three pins. *)
Definition init (a b c : Z) : EC11 :=
  {| last_state := pack a b;
     counter := 0;
     step_accumulator := 0;
     last_button := c;
     button_debounce_time := 0 |}.

Definition set_last_state (s : EC11) (v : Z) : EC11 :=
  {| last_state := v;
     counter := counter s;
     step_accumulator := step_accumulator s;
     last_button := last_button s;
     button_debounce_time := button_debounce_time s |}.

Definition set_counter (s : EC11) (v : Z) : EC11 :=
  {| last_state := last_state s;
     counter := v;
     step_accumulator := step_accumulator s;
     last_button := last_button s;
     button_debounce_time := button_debounce_time s |}.

Definition set_step_accumulator (s : EC11) (v : Z) : EC11 :=
  {| last_state := last_state s;
     counter := counter s;
     step_accumulator := v;
     last_button := last_button s;
     button_debounce_time := button_debounce_time s |}.

Definition set_last_button (s : EC11) (v : Z) : EC11 :=
  {| last_state := last_state s;
     counter := counter s;
     step_accumulator := step_accumulator s;
     last_button := v;
     button_debounce_time := button_debounce_time s |}.

Definition set_button_debounce_time (s : EC11) (v : Z) : EC11 :=
  {| last_state := last_state s;
     counter := counter s;
     step_accumulator := step_accumulator s;
     last_button := last_button s;
     button_debounce_time := v |}.

(** ** read_rotation *)

(** [index = (self.last_state << 2) | current_state] *)
Definition index (s : EC11) (a b : Z) : Z :=
  Z.lor (Z.shiftl (last_state s) 2) (pack a b).

(** [direction = self.state_table[index]] *)
Definition direction (s : EC11) (a b : Z) : result Z :=
  py_getitem state_table (index s a b).

(** [EC11.read_rotation], given the levels [a] and [b] read on the two
    rotation pins: the returned direction and the state after the call. *)
Definition read_rotation (s : EC11) (a b : Z) : result (Z * EC11) :=
  let current_state := pack a b in
  d <- direction s a b ;;
  if negb (d =? 0) then
    let s1 := set_step_accumulator s (step_accumulator s + d) in
    let s2 := set_counter s1 (counter s1 + d) in
    if Z.abs (step_accumulator s2) >=? 4 then
      let result := if step_accumulator s2 >? 0 then 1 else -1 in
      let s3 := set_step_accumulator s2 0 in
      let s4 := set_last_state s3 current_state in
      Ok (result, s4)
    else
      Ok (0, set_last_state s2 current_state)
  else
    Ok (0, set_last_state s current_state).

(** ** read_button *)

(** [EC11.read_button], given the value [current_time] of
    [time.ticks_ms()] and the level [current_button] read on the button
    pin. *)
Definition read_button (s : EC11) (current_button current_time : Z)
  : bool * EC11 :=
  if (last_button s =? 0) && (current_button =? 1) then
    if ticks_diff current_time (button_debounce_time s) >? 50 then
      let s1 := set_button_debounce_time s current_time in
      let s2 := set_last_button s1 current_button in
      (true, s2)
    else
      (false, set_last_button s current_button)
  else
    (false, set_last_button s current_button).

(** ** get_counter and reset_counter *)

Definition get_counter (s : EC11) : Z := counter s.

Definition reset_counter (s : EC11) : EC11 := set_counter s 0.

(** ** The polling loop *)

(** What one iteration of the loop at the end of the file prints. *)
Inductive event : Type :=
| Clockwise (n : Z)
| AntiClockwise (n : Z)
| ButtonPressed (n : Z).

(** The body of the [while True] loop, given the three pin levels and the
    tick count it reads: the lines printed and the state of [encoder]
    after the iteration. *)
Definition poll (s : EC11) (a b c now : Z) : result (list event * EC11) :=
  p <- read_rotation s a b ;;
  let rotation := fst p in
  let s1 := snd p in
  let out :=
    if rotation =? 1 then [Clockwise (get_counter s1)]
    else if rotation =? -1 then [AntiClockwise (get_counter s1)]
    else [] in
  let q := read_button s1 c now in
  if fst q then
    Ok (out ++ [ButtonPressed (get_counter (snd q))], reset_counter (snd q))
  else
    Ok (out, snd q).

(** ** Successive calls *)

(** One entry per call of [read_rotation]: the delta looked up in the
    table, the value returned, and the state after the call. *)
Record sample : Type := mkSample {
  delta : Z;
  returned : Z;
  post : EC11
}.

(** [read_rotation] called once per pair of pin levels, in order. *)
Fixpoint rotation_trace (s : EC11) (levels : list (Z * Z))
  : result (list sample) :=
  match levels with
  | [] => Ok []
  | (a, b) :: rest =>
      d <- direction s a b ;;
      p <- read_rotation s a b ;;
      tr <- rotation_trace (snd p) rest ;;
      Ok (mkSample d (fst p) (snd p) :: tr)
  end.

(** The state after the last call of a trace that started in [s]. *)
Definition final_state (s : EC11) (tr : list sample) : EC11 :=
  last (map post tr) s.

(** [read_button] called once per (level, tick count) pair, in order: the
    values returned and the state after the last call. *)
Fixpoint button_run (s : EC11) (inputs : list (Z * Z)) : list bool * EC11 :=
  match inputs with
  | [] => ([], s)
  | (c, now) :: rest =>
      let q := read_button s c now in
      let r := button_run (snd q) rest in
      (fst q :: fst r, snd r)
  end.

(** The values successive calls of [read_rotation] return. *)
Definition returns (s : EC11) (levels : list (Z * Z)) : result (list Z) :=
  tr <- rotation_trace s levels ;;
  Ok (map returned tr).

(** The signed sum of the non-zero entries of a list of deltas. *)
Definition sum_nonzero (ds : list Z) : Z :=
  fold_right Z.add 0 (filter (fun d => negb (d =? 0)) ds).

(** ** The boundary contract *)

(** A pin level is 0 or 1. *)
Definition level (v : Z) : Prop := v = 0 \/ v = 1.

Definition levels (p : Z * Z) : Prop := level (fst p) /\ level (snd p).

(** The packed state remembered from the last sample is a 2-bit value. *)
Definition wf (s : EC11) : Prop := 0 <= last_state s <= 3.

(** ** The effect of one call, in closed form *)

(** The state [read_rotation] leaves and the value it returns, as a
    function of the delta it looked up. *)
Definition rotation_outcome (s : EC11) (a b d : Z) : Z * EC11 :=
  if negb (d =? 0) && (Z.abs (step_accumulator s + d) >=? 4) then
    (if step_accumulator s + d >? 0 then 1 else -1,
     mkEC11 (pack a b) (counter s + d) 0
            (last_button s) (button_debounce_time s))
  else
    (0,
     mkEC11 (pack a b) (counter s + d) (step_accumulator s + d)
            (last_button s) (button_debounce_time s)).

(** ** The loop, iterated *)

(** The [while True] loop run for as many iterations as there are readings
    (pin A, pin B, pin C, tick count): everything printed, in order, and
    the state of [encoder] afterwards.  An exception leaves the loop. *)
Fixpoint poll_run (s : EC11) (readings : list (Z * Z * Z * Z))
  : result (list event * EC11) :=
  match readings with
  | [] => Ok ([], s)
  | (a, b, c, now) :: rest =>
      p <- poll s a b c now ;;
      q <- poll_run (snd p) rest ;;
      Ok (fst p ++ fst q, snd q)
  end.

(** ** Vocabulary of the further properties *)

(** The quadrature rule, on pin levels: from the sample [(a0, b0)] to the
    sample [(a, b)], a step is counted when exactly one pin changed, +1
    when the new level of pin A differs from the old level of pin B and
    -1 when it equals it. *)
Definition quadrature_rule (a0 b0 a b : Z) : Z :=
  if Bool.eqb (a =? a0) (b =? b0) then 0
  else if a =? b0 then -1 else 1.

(** How many calls of a list of returned values reported a detent. *)
Definition count_detents (rs : list Z) : Z :=
  Z.of_nat (length (filter (fun r => negb (r =? 0)) rs)).

(** The net number of detents reported. *)
Definition net_detents (rs : list Z) : Z := fold_right Z.add 0 rs.

(** The tick counts of the calls of [read_button] that returned true. *)
Fixpoint accepted_times (s : EC11) (inputs : list (Z * Z)) : list Z :=
  match inputs with
  | [] => []
  | (c, now) :: rest =>
      let q := read_button s c now in
      if fst q then now :: accepted_times (snd q) rest
      else accepted_times (snd q) rest
  end.

(** Each tick count of the list is more than 50 ticks after the one before
    it, the first one after [t]. *)
Fixpoint spaced (t : Z) (ts : list Z) : Prop :=
  match ts with
  | [] => True
  | t' :: rest => ticks_diff t' t > 50 /\ spaced t' rest
  end.

(** ** Vocabulary of the loop properties *)

(** Two states agree on what read_rotation reads. *)
Definition same_rotation (s s' : EC11) : Prop :=
  last_state s = last_state s' /\ step_accumulator s = step_accumulator s'.

(** Two states agree on what read_button reads. *)
Definition same_button (s s' : EC11) : Prop :=
  last_button s = last_button s' /\
  button_debounce_time s = button_debounce_time s'.

(** The rotation pins of a reading are in contract. *)
Definition reading_ok (r : Z * Z * Z * Z) : Prop :=
  level (fst (fst (fst r))) /\ level (snd (fst (fst r))).

(** The directions of the rotation lines printed, in order. *)
Definition rotation_lines (out : list event) : list Z :=
  flat_map (fun e => match e with
                     | Clockwise _ => [1]
                     | AntiClockwise _ => [-1]
                     | ButtonPressed _ => []
                     end) out.

(** The number of button lines printed. *)
Definition button_lines (out : list event) : nat :=
  length (filter (fun e => match e with
                           | ButtonPressed _ => true
                           | _ => false
                           end) out).

(** The rotation pins and the button reading of a loop iteration. *)
Definition rotation_pins (r : Z * Z * Z * Z) : Z * Z :=
  (fst (fst (fst r)), snd (fst (fst r))).

Definition button_reading (r : Z * Z * Z * Z) : Z * Z :=
  (snd (fst r), snd r).

(** * Properties *)

(** ** Packing and table lookup *)

Lemma level_cases (v : Z) : level v -> v = 0 \/ v = 1.
Proof. exact (fun H => H). Qed.

Lemma wf_cases (s : EC11) :
  wf s ->
  last_state s = 0 \/ last_state s = 1 \/ last_state s = 2 \/ last_state s = 3.
Proof. unfold wf. lia. Qed.

(** Splits a goal over the 2 x 2 pin levels and the 4 remembered states. *)
Ltac enumerate_inputs Hs Ha Hb :=
  apply wf_cases in Hs; apply level_cases in Ha; apply level_cases in Hb;
  destruct Hs as [Hs | [Hs | [Hs | Hs]]];
  destruct Ha as [Ha | Ha]; destruct Hb as [Hb | Hb].

Lemma pack_range (a b : Z) : level a -> level b -> 0 <= pack a b <= 3.
Proof.
  intros [-> | ->] [-> | ->]; vm_compute; split; discriminate.
Qed.

Lemma index_range (s : EC11) (a b : Z) :
  wf s -> level a -> level b -> 0 <= index s a b <= 15.
Proof.
  intros Hs Ha Hb. unfold index.
  enumerate_inputs Hs Ha Hb; rewrite Hs, Ha, Hb;
    vm_compute; split; discriminate.
Qed.

Lemma direction_total (s : EC11) (a b : Z) :
  wf s -> level a -> level b ->
  exists d, direction s a b = Ok d /\ (d = -1 \/ d = 0 \/ d = 1).
Proof.
  intros Hs Ha Hb. unfold direction, index.
  enumerate_inputs Hs Ha Hb; rewrite Hs, Ha, Hb;
    eexists; (split; [vm_compute; reflexivity | lia]).
Qed.

(** Every entry of the table is -1, 0 or 1, so whatever index the lookup
    accepts, the delta is one of them. *)
Lemma direction_values (s : EC11) (a b d : Z) :
  direction s a b = Ok d -> d = -1 \/ d = 0 \/ d = 1.
Proof.
  unfold direction, py_getitem.
  set (i := index s a b). set (n := Z.of_nat (length state_table)).
  set (j := if i <? 0 then i + n else i).
  destruct ((0 <=? j) && (j <? n)) eqn:Hj; [| discriminate].
  apply andb_prop in Hj as [H0 Hn].
  apply Z.leb_le in H0. apply Z.ltb_lt in Hn.
  change n with 16 in Hn.
  destruct (nth_error state_table (Z.to_nat j)) as [v |] eqn:Hv;
    [| discriminate].
  intros [= <-].
  assert (Hin : In v state_table) by (eapply nth_error_In; exact Hv).
  simpl in Hin. lia.
Qed.

(** ** What one call of read_rotation does *)

Lemma read_rotation_outcome (s : EC11) (a b d : Z) :
  direction s a b = Ok d ->
  read_rotation s a b = Ok (rotation_outcome s a b d).
Proof.
  intros Hd. unfold read_rotation, rotation_outcome. rewrite Hd. simpl.
  destruct (d =? 0) eqn:E; simpl.
  - apply Z.eqb_eq in E. subst d. rewrite !Z.add_0_r.
    destruct s; reflexivity.
  - destruct (Z.abs (step_accumulator s + d) >=? 4); reflexivity.
Qed.

Lemma read_rotation_raises (s : EC11) (a b : Z) (e : exn) :
  direction s a b = Raise e -> read_rotation s a b = Raise e.
Proof. intros Hd. unfold read_rotation. rewrite Hd. reflexivity. Qed.

Lemma read_rotation_inv (s : EC11) (a b r : Z) (s' : EC11) :
  read_rotation s a b = Ok (r, s') ->
  exists d, direction s a b = Ok d /\ rotation_outcome s a b d = (r, s').
Proof.
  intros H. destruct (direction s a b) as [d | e] eqn:Hd.
  - exists d. split; [reflexivity |].
    rewrite (read_rotation_outcome _ _ _ _ Hd) in H. congruence.
  - rewrite (read_rotation_raises _ _ _ _ Hd) in H. discriminate.
Qed.

Lemma read_rotation_total (s : EC11) (a b : Z) :
  wf s -> level a -> level b ->
  exists r s', read_rotation s a b = Ok (r, s').
Proof.
  intros Hs Ha Hb.
  destruct (direction_total s a b Hs Ha Hb) as (d & Hd & _).
  rewrite (read_rotation_outcome _ _ _ _ Hd).
  destruct (rotation_outcome s a b d) as [r s']. eauto.
Qed.

Lemma outcome_last_state (s : EC11) (a b d : Z) :
  last_state (snd (rotation_outcome s a b d)) = pack a b.
Proof.
  unfold rotation_outcome.
  destruct (negb (d =? 0) && (Z.abs (step_accumulator s + d) >=? 4));
    reflexivity.
Qed.

Lemma outcome_counter (s : EC11) (a b d : Z) :
  counter (snd (rotation_outcome s a b d)) = counter s + d.
Proof.
  unfold rotation_outcome.
  destruct (negb (d =? 0) && (Z.abs (step_accumulator s + d) >=? 4));
    reflexivity.
Qed.

Lemma outcome_returned (s : EC11) (a b d : Z) :
  let r := fst (rotation_outcome s a b d) in r = -1 \/ r = 0 \/ r = 1.
Proof.
  unfold rotation_outcome.
  destruct (negb (d =? 0) && (Z.abs (step_accumulator s + d) >=? 4)); simpl;
    [destruct (step_accumulator s + d >? 0) |]; lia.
Qed.

Lemma outcome_emits (s : EC11) (a b d : Z) :
  fst (rotation_outcome s a b d) <> 0 ->
  step_accumulator (snd (rotation_outcome s a b d)) = 0.
Proof.
  unfold rotation_outcome.
  destruct (negb (d =? 0) && (Z.abs (step_accumulator s + d) >=? 4)); simpl;
    [reflexivity | congruence].
Qed.

Lemma outcome_bounded (s : EC11) (a b d : Z) :
  Z.abs (step_accumulator s) <= 3 ->
  d = -1 \/ d = 0 \/ d = 1 ->
  Z.abs (step_accumulator (snd (rotation_outcome s a b d))) <= 3.
Proof.
  intros Hacc Hd. unfold rotation_outcome.
  destruct (negb (d =? 0)) eqn:E0; simpl.
  - destruct (Z.abs (step_accumulator s + d) >=? 4) eqn:E4; simpl; [lia |].
    rewrite Z.geb_leb in E4. apply Z.leb_gt in E4. lia.
  - apply negb_false_iff, Z.eqb_eq in E0. subst d.
    rewrite Z.add_0_r. exact Hacc.
Qed.

Lemma wf_read_rotation (s : EC11) (a b r : Z) (s' : EC11) :
  level a -> level b -> read_rotation s a b = Ok (r, s') -> wf s'.
Proof.
  intros Ha Hb H. apply read_rotation_inv in H as (d & _ & Ho).
  unfold wf. replace s' with (snd (rotation_outcome s a b d))
    by (rewrite Ho; reflexivity).
  rewrite outcome_last_state. apply pack_range; assumption.
Qed.

(** ** Successive calls of read_rotation *)

Lemma last_nonempty {A : Type} (l : list A) :
  forall x d d', last (x :: l) d = last (x :: l) d'.
Proof.
  induction l as [| y l IH]; intros x d d'; [reflexivity |].
  change (last (y :: l) d = last (y :: l) d'). apply IH.
Qed.

Lemma final_state_cons (s : EC11) (e : sample) (tr : list sample) :
  final_state s (e :: tr) = final_state (post e) tr.
Proof.
  unfold final_state. simpl. destruct (map post tr) eqn:E; [reflexivity |].
  apply last_nonempty.
Qed.

Lemma rotation_trace_inv (s : EC11) (a b : Z) (rest : list (Z * Z))
      (tr : list sample) :
  rotation_trace s ((a, b) :: rest) = Ok tr ->
  exists d tr',
    direction s a b = Ok d /\
    rotation_trace (snd (rotation_outcome s a b d)) rest = Ok tr' /\
    tr = mkSample d (fst (rotation_outcome s a b d))
                    (snd (rotation_outcome s a b d)) :: tr'.
Proof.
  simpl. destruct (direction s a b) as [d | e] eqn:Hd; simpl; [| discriminate].
  rewrite (read_rotation_outcome _ _ _ _ Hd). simpl.
  destruct (rotation_trace (snd (rotation_outcome s a b d)) rest)
    as [tr' | e] eqn:Htr; simpl; [| discriminate].
  intros [= <-]. exists d, tr'. repeat split. exact Htr.
Qed.

Lemma rotation_trace_total (ls : list (Z * Z)) :
  forall s, wf s -> Forall levels ls -> exists tr, rotation_trace s ls = Ok tr.
Proof.
  induction ls as [| [a b] rest IH]; intros s Hs Hls.
  - exists []. reflexivity.
  - inversion Hls as [| x l [Ha Hb] Hrest]; subst. simpl in Ha, Hb.
    destruct (direction_total s a b Hs Ha Hb) as (d & Hd & _).
    assert (Hwf : wf (snd (rotation_outcome s a b d))).
    { unfold wf. rewrite outcome_last_state. apply pack_range; assumption. }
    destruct (IH _ Hwf Hrest) as (tr' & Htr').
    simpl. rewrite Hd. simpl.
    rewrite (read_rotation_outcome _ _ _ _ Hd). simpl.
    rewrite Htr'. simpl. eauto.
Qed.

Lemma rotation_trace_length (ls : list (Z * Z)) :
  forall s tr, rotation_trace s ls = Ok tr -> length tr = length ls.
Proof.
  induction ls as [| [a b] rest IH]; intros s tr H.
  - simpl in H. injection H as <-. reflexivity.
  - apply rotation_trace_inv in H as (d & tr' & _ & Htr' & ->).
    simpl. f_equal. eapply IH; eassumption.
Qed.

Lemma sum_nonzero_cons (d : Z) (ds : list Z) :
  sum_nonzero (d :: ds) = d + sum_nonzero ds.
Proof.
  unfold sum_nonzero. simpl. destruct (d =? 0) eqn:E; simpl.
  - apply Z.eqb_eq in E. lia.
  - reflexivity.
Qed.

(** Whenever a sequence of calls completes, the counter has moved by the
    sum of the non-zero deltas. *)
Lemma rotation_trace_counter (ls : list (Z * Z)) :
  forall s tr,
    rotation_trace s ls = Ok tr ->
    counter (final_state s tr) = counter s + sum_nonzero (map delta tr).
Proof.
  induction ls as [| [a b] rest IH]; intros s tr H.
  - simpl in H. injection H as <-. unfold final_state, sum_nonzero. simpl. lia.
  - apply rotation_trace_inv in H as (d & tr' & _ & Htr' & ->).
    rewrite final_state_cons. simpl post. simpl map.
    rewrite sum_nonzero_cons, (IH _ _ Htr'), outcome_counter. lia.
Qed.

(** The accumulator stays within [-3, 3] across any completed sequence of
    calls, and is 0 after each call that returned a direction. *)
Lemma rotation_trace_bounded (ls : list (Z * Z)) :
  forall s tr,
    Z.abs (step_accumulator s) <= 3 ->
    rotation_trace s ls = Ok tr ->
    Forall (fun e => Z.abs (step_accumulator (post e)) <= 3 /\
                     (returned e <> 0 -> step_accumulator (post e) = 0)) tr.
Proof.
  induction ls as [| [a b] rest IH]; intros s tr Hacc H.
  - simpl in H. injection H as <-. constructor.
  - apply rotation_trace_inv in H as (d & tr' & Hd & Htr' & ->).
    assert (Hb : Z.abs (step_accumulator (snd (rotation_outcome s a b d))) <= 3)
      by (apply outcome_bounded; [assumption | eapply direction_values; eauto]).
    constructor.
    + simpl. split; [exact Hb | apply outcome_emits].
    + eapply IH; eassumption.
Qed.

(** ** Tick arithmetic and read_button *)

(** Within half a period the wrap-around difference is the plain one. *)
Lemma ticks_diff_small (t1 t2 : Z) :
  - (TICKS_PERIOD / 2) <= t1 - t2 < TICKS_PERIOD / 2 ->
  ticks_diff t1 t2 = t1 - t2.
Proof.
  intros H. unfold ticks_diff.
  change (TICKS_PERIOD - 1) with (Z.ones 30).
  rewrite Z.land_ones by lia.
  change (TICKS_PERIOD / 2) with (2 ^ 29) in *.
  rewrite Z.mod_small; lia.
Qed.

Lemma read_button_true_iff (s : EC11) (lvl now : Z) :
  fst (read_button s lvl now) = true <->
  (lvl = 1 /\ last_button s = 0 /\
   ticks_diff now (button_debounce_time s) > 50).
Proof.
  unfold read_button.
  destruct (last_button s =? 0) eqn:E0; destruct (lvl =? 1) eqn:E1; simpl;
    try destruct (ticks_diff now (button_debounce_time s) >? 50) eqn:E2;
    simpl; rewrite ?Z.eqb_eq, ?Z.eqb_neq in *;
    try (rewrite Z.gtb_ltb in E2);
    rewrite ?Z.ltb_lt, ?Z.ltb_ge in *;
    split; try discriminate; try reflexivity; try lia.
Qed.

Lemma read_button_state (s : EC11) (lvl now : Z) :
  snd (read_button s lvl now) =
  if fst (read_button s lvl now)
  then mkEC11 (last_state s) (counter s) (step_accumulator s) lvl now
  else mkEC11 (last_state s) (counter s) (step_accumulator s) lvl
              (button_debounce_time s).
Proof.
  unfold read_button.
  destruct ((last_button s =? 0) && (lvl =? 1));
    [destruct (ticks_diff now (button_debounce_time s) >? 50) |];
    reflexivity.
Qed.

(** Until a press is accepted, the time of the last accepted press is the
    one the run started with. *)
Lemma button_run_rejected (inputs : list (Z * Z)) :
  forall s,
    Forall (fun r => r = false) (fst (button_run s inputs)) ->
    button_debounce_time (snd (button_run s inputs)) = button_debounce_time s.
Proof.
  induction inputs as [| [c now] rest IH]; intros s H; [reflexivity |].
  simpl in *. inversion H as [| x l Hx Hl]; subst.
  rewrite (IH _ Hl), read_button_state, Hx. reflexivity.
Qed.

(** * The claims *)

(** ** Detents *)

(** Four calls that each look up the same non-zero delta [d], from an empty
    accumulator: the first three return 0 and the fourth returns [d]. *)
Lemma four_steps_one_detent (s : EC11) (ls : list (Z * Z))
      (tr : list sample) (d : Z) :
  d = 1 \/ d = -1 ->
  step_accumulator s = 0 ->
  rotation_trace s ls = Ok tr ->
  map delta tr = [d; d; d; d] ->
  map returned tr = [0; 0; 0; d] /\
  step_accumulator (final_state s tr) = 0.
Proof.
  intros Hd Hacc Htr Hds.
  assert (Hlen : length ls = 4%nat).
  { rewrite <- (rotation_trace_length _ _ _ Htr), <- (length_map delta), Hds.
    reflexivity. }
  destruct ls as [| [a1 b1] [| [a2 b2] [| [a3 b3] [| [a4 b4] [| ? ?]]]]];
    try discriminate Hlen.
  apply rotation_trace_inv in Htr as (d1 & tr1 & _ & Htr & ->).
  apply rotation_trace_inv in Htr as (d2 & tr2 & _ & Htr & ->).
  apply rotation_trace_inv in Htr as (d3 & tr3 & _ & Htr & ->).
  apply rotation_trace_inv in Htr as (d4 & tr4 & _ & Htr & ->).
  simpl in Htr. injection Htr as <-.
  simpl in Hds. injection Hds as -> -> -> ->.
  rewrite !final_state_cons. unfold final_state. simpl.
  unfold rotation_outcome. simpl. rewrite Hacc.
  destruct Hd as [-> | ->]; simpl; split; reflexivity.
Qed.

(** C1: the cycle the claim names as clockwise, 0 -> 1 -> 3 -> 2 -> 0, is
    followed from each of its four states on a freshly constructed
    encoder.  The claim has the fourth call return +1; each of the four
    calls looks up -1 and the fourth returns -1. *)
Theorem named_cycle_returns_minus_one (c : Z) :
  returns (init 0 0 c) [(0, 1); (1, 1); (1, 0); (0, 0)] = Ok [0; 0; 0; -1] /\
  returns (init 0 1 c) [(1, 1); (1, 0); (0, 0); (0, 1)] = Ok [0; 0; 0; -1] /\
  returns (init 1 1 c) [(1, 0); (0, 0); (0, 1); (1, 1)] = Ok [0; 0; 0; -1] /\
  returns (init 1 0 c) [(0, 0); (0, 1); (1, 1); (1, 0)] = Ok [0; 0; 0; -1].
Proof. repeat split; reflexivity. Qed.

(** C2: from a state that remembers the sample (0,0) with an empty
    accumulator, the calls with pin levels (0,1), (1,1), (1,0), (0,0) each
    look up -1; the first three return 0 and leave the accumulator at -1,
    -2, -3; the fourth returns -1 and leaves the accumulator at 0. *)
Theorem counter_clockwise_scenario (s : EC11) :
  last_state s = 0 ->
  step_accumulator s = 0 ->
  exists s1 s2 s3 s4,
    rotation_trace s [(0, 1); (1, 1); (1, 0); (0, 0)] =
      Ok [mkSample (-1) 0 s1; mkSample (-1) 0 s2;
          mkSample (-1) 0 s3; mkSample (-1) (-1) s4] /\
    step_accumulator s1 = -1 /\ step_accumulator s2 = -2 /\
    step_accumulator s3 = -3 /\ step_accumulator s4 = 0 /\
    last_state s4 = 0 /\ counter s4 = counter s - 4.
Proof.
  destruct s as [q n acc lb t]. simpl. intros -> ->.
  do 4 eexists. split; [reflexivity |]. simpl. repeat split. lia.
Qed.

Lemma counter_clockwise_scenario_witness :
  exists s1 s2 s3 s4,
    rotation_trace (init 0 0 0) [(0, 1); (1, 1); (1, 0); (0, 0)] =
      Ok [mkSample (-1) 0 s1; mkSample (-1) 0 s2;
          mkSample (-1) 0 s3; mkSample (-1) (-1) s4] /\
    step_accumulator s1 = -1 /\ step_accumulator s2 = -2 /\
    step_accumulator s3 = -3 /\ step_accumulator s4 = 0 /\
    last_state s4 = 0 /\ counter s4 = counter (init 0 0 0) - 4.
Proof.
  apply (counter_clockwise_scenario (init 0 0 0)); reflexivity.
Defined.

(** ** The counter *)

(** C3: every sequence of calls of read_rotation on in-contract pin levels
    completes, and the counter then equals its initial value plus the sum
    of the non-zero deltas looked up, whatever the calls returned. *)
Theorem counter_tracks_every_delta (s : EC11) (ls : list (Z * Z)) :
  wf s ->
  Forall levels ls ->
  exists tr,
    rotation_trace s ls = Ok tr /\
    length tr = length ls /\
    get_counter (final_state s tr) =
      get_counter s + sum_nonzero (map delta tr).
Proof.
  intros Hs Hls.
  destruct (rotation_trace_total ls s Hs Hls) as (tr & Htr).
  exists tr. split; [exact Htr |]. split.
  - eapply rotation_trace_length; eassumption.
  - unfold get_counter. apply (rotation_trace_counter ls); assumption.
Qed.

Lemma levels_intro (a b : Z) : level a -> level b -> levels (a, b).
Proof. intros Ha Hb. split; assumption. Qed.

Lemma level_0 : level 0.
Proof. left. reflexivity. Qed.

Lemma level_1 : level 1.
Proof. right. reflexivity. Qed.

Lemma wf_init (a b c : Z) : level a -> level b -> wf (init a b c).
Proof. intros Ha Hb. unfold wf. simpl. apply pack_range; assumption. Qed.

Create HintDb ec11.
#[local] Hint Resolve levels_intro level_0 level_1 wf_init : ec11.

(** Discharges the contract on a concrete list of pin levels. *)
Ltac in_contract :=
  repeat first [apply Forall_nil | apply Forall_cons]; auto with ec11.

Lemma counter_tracks_every_delta_witness :
  exists tr,
    rotation_trace (init 0 0 0) [(1, 0); (1, 1); (0, 1); (0, 0); (0, 1)]
      = Ok tr /\
    length tr = 5%nat /\
    get_counter (final_state (init 0 0 0) tr) = 0 + sum_nonzero (map delta tr).
Proof.
  apply (counter_tracks_every_delta (init 0 0 0)
           [(1, 0); (1, 1); (0, 1); (0, 0); (0, 1)]).
  - auto with ec11.
  - in_contract.
Defined.

(** ** The accumulator *)

(** C4: a call of read_rotation that returns a non-zero direction leaves
    the accumulator at 0; and starting from an empty accumulator, every
    sequence of calls on in-contract pin levels completes with the
    accumulator within [-3, 3] after each call. *)
Theorem accumulator_reset_and_bounded :
  (forall s a b r s',
      read_rotation s a b = Ok (r, s') ->
      r <> 0 ->
      step_accumulator s' = 0) /\
  (forall s ls,
      wf s ->
      step_accumulator s = 0 ->
      Forall levels ls ->
      exists tr,
        rotation_trace s ls = Ok tr /\
        length tr = length ls /\
        Forall (fun e => Z.abs (step_accumulator (post e)) <= 3) tr).
Proof.
  split.
  - intros s a b r s' H Hr.
    apply read_rotation_inv in H as (d & _ & Ho).
    replace s' with (snd (rotation_outcome s a b d))
      by (rewrite Ho; reflexivity).
    apply outcome_emits. rewrite Ho. exact Hr.
  - intros s ls Hs Hacc Hls.
    destruct (rotation_trace_total ls s Hs Hls) as (tr & Htr).
    exists tr. split; [exact Htr |]. split.
    + eapply rotation_trace_length; eassumption.
    + assert (H3 : Z.abs (step_accumulator s) <= 3) by (rewrite Hacc; simpl; lia).
      pose proof (rotation_trace_bounded ls s tr H3 Htr) as Hall.
      eapply Forall_impl; [| exact Hall]. simpl. intros e [He _]. exact He.
Qed.

Lemma accumulator_reset_and_bounded_witness :
  step_accumulator (mkEC11 2 3 0 0 0) = 0 /\
  exists tr,
    rotation_trace (init 0 0 0) [(1, 0); (1, 1); (0, 1); (0, 0); (1, 0)]
      = Ok tr /\
    length tr = 5%nat /\
    Forall (fun e => Z.abs (step_accumulator (post e)) <= 3) tr.
Proof.
  split.
  - apply (proj1 accumulator_reset_and_bounded
             (mkEC11 0 2 3 0 0) 1 0 1 (mkEC11 2 3 0 0 0)).
    + reflexivity.
    + discriminate.
  - apply (proj2 accumulator_reset_and_bounded (init 0 0 0)
             [(1, 0); (1, 1); (0, 1); (0, 0); (1, 0)]).
    + auto with ec11.
    + reflexivity.
    + in_contract.
Defined.

(** ** Samples that change nothing *)

(** C5: a call of read_rotation whose packed sample is the remembered
    2-bit state returns 0 and leaves the whole state as it was, counter and
    accumulator included; so does any number of such calls in a row. *)
Theorem unchanged_sample_is_idempotent (s : EC11) (a b : Z) (n : nat) :
  wf s ->
  pack a b = last_state s ->
  read_rotation s a b = Ok (0, s) /\
  rotation_trace s (repeat (a, b) n) = Ok (repeat (mkSample 0 0 s) n).
Proof.
  intros Hs Hq.
  assert (Hd : direction s a b = Ok 0).
  { unfold direction, index. rewrite Hq. apply wf_cases in Hs.
    destruct Hs as [-> | [-> | [-> | ->]]]; reflexivity. }
  assert (Hr : read_rotation s a b = Ok (0, s)).
  { rewrite (read_rotation_outcome _ _ _ _ Hd). unfold rotation_outcome. simpl.
    rewrite !Z.add_0_r, Hq. destruct s; reflexivity. }
  split; [exact Hr |].
  induction n as [| n IH]; [reflexivity |].
  simpl. rewrite Hd, Hr. simpl. rewrite IH. reflexivity.
Qed.

Lemma unchanged_sample_is_idempotent_witness :
  read_rotation (mkEC11 3 7 2 0 0) 1 1 = Ok (0, mkEC11 3 7 2 0 0) /\
  rotation_trace (mkEC11 3 7 2 0 0) (repeat (1, 1) 6) =
    Ok (repeat (mkSample 0 0 (mkEC11 3 7 2 0 0)) 6).
Proof.
  apply (unchanged_sample_is_idempotent (mkEC11 3 7 2 0 0) 1 1 6).
  - unfold wf. simpl. lia.
  - reflexivity.
Defined.

(** ** The button *)

Lemma read_button_accept (s : EC11) (now : Z) :
  last_button s = 0 ->
  ticks_diff now (button_debounce_time s) > 50 ->
  read_button s 1 now =
    (true, mkEC11 (last_state s) (counter s) (step_accumulator s) 1 now).
Proof.
  intros H0 Ht.
  assert (E : fst (read_button s 1 now) = true)
    by (apply read_button_true_iff; auto).
  pose proof (read_button_state s 1 now) as Hs. rewrite E in Hs.
  destruct (read_button s 1 now) as [r s']. simpl in *. congruence.
Qed.

Lemma read_button_reject (s : EC11) (lvl now : Z) :
  lvl <> 1 \/ last_button s <> 0 \/
    ticks_diff now (button_debounce_time s) <= 50 ->
  read_button s lvl now =
    (false, mkEC11 (last_state s) (counter s) (step_accumulator s) lvl
                   (button_debounce_time s)).
Proof.
  intros H.
  assert (E : fst (read_button s lvl now) = false).
  { destruct (fst (read_button s lvl now)) eqn:E; [| reflexivity].
    apply read_button_true_iff in E. lia. }
  pose proof (read_button_state s lvl now) as Hs. rewrite E in Hs.
  destruct (read_button s lvl now) as [r s']. simpl in *. congruence.
Qed.

(** C6: read_button returns true exactly on a rising edge whose distance
    in ticks from the last accepted press is more than 50, and then
    records the tick count of the call; the distance is the plain
    difference within half a tick period.  After a press accepted at tick
    0 and a release, a rising edge at tick 30 returns false and one at
    tick 51 returns true. *)
Theorem read_button_accepts_debounced_edge :
  (forall s lvl now,
      (fst (read_button s lvl now) = true <->
       lvl = 1 /\ last_button s = 0 /\
       ticks_diff now (button_debounce_time s) > 50) /\
      (fst (read_button s lvl now) = true ->
       button_debounce_time (snd (read_button s lvl now)) = now) /\
      (- (TICKS_PERIOD / 2) <= now - button_debounce_time s
         < TICKS_PERIOD / 2 ->
       ticks_diff now (button_debounce_time s)
         = now - button_debounce_time s)) /\
  (forall s t1 t2,
      last_button s = 0 ->
      ticks_diff 0 (button_debounce_time s) > 50 ->
      fst (button_run s [(1, 0); (0, t1); (1, 30)]) = [true; false; false] /\
      fst (button_run s [(1, 0); (0, t1); (1, 51)]) = [true; false; true] /\
      button_debounce_time (snd (button_run s [(1, 0); (0, t1); (1, 51)]))
        = 51 /\
      fst (button_run s [(1, 0); (0, t1); (1, 30); (0, t2); (1, 51)])
        = [true; false; false; false; true]).
Proof.
  split.
  - intros s lvl now. split; [apply read_button_true_iff |]. split.
    + intros E. rewrite read_button_state, E. reflexivity.
    + apply ticks_diff_small.
  - intros s t1 t2 H0 Ht. unfold button_run.
    rewrite (read_button_accept s 0 H0 Ht). cbn [fst snd].
    rewrite (read_button_reject _ 0 t1) by (left; discriminate).
    cbn [fst snd last_state counter step_accumulator button_debounce_time].
    rewrite (read_button_reject _ 1 30)
      by (right; right; vm_compute; discriminate).
    rewrite (read_button_accept _ 51) by (vm_compute; reflexivity).
    cbn [fst snd last_state counter step_accumulator button_debounce_time].
    rewrite (read_button_reject _ 0 t2) by (left; discriminate).
    cbn [fst snd last_state counter step_accumulator button_debounce_time].
    rewrite (read_button_accept _ 51) by (vm_compute; reflexivity).
    repeat split.
Qed.

Lemma read_button_accepts_debounced_edge_witness :
  button_debounce_time (snd (read_button (mkEC11 0 0 0 0 1000) 1 1051)) = 1051
  /\ ticks_diff 1051 1000 = 51
  /\ fst (button_run (mkEC11 0 0 0 0 (TICKS_PERIOD - 100))
                     [(1, 0); (0, 10); (1, 30); (0, 40); (1, 51)])
     = [true; false; false; false; true].
Proof.
  pose proof (proj1 read_button_accepts_debounced_edge
                (mkEC11 0 0 0 0 1000) 1 1051) as (_ & Hset & Hdiff).
  pose proof (proj2 read_button_accepts_debounced_edge
                (mkEC11 0 0 0 0 (TICKS_PERIOD - 100)) 10 40) as Hrun.
  split; [apply Hset; reflexivity |].
  split; [apply Hdiff; vm_compute; split; [discriminate | reflexivity] |].
  apply Hrun; reflexivity.
Defined.

(** C10: on an encoder that has not accepted a press since it was
    constructed, the time of the last accepted press is still the 0 of
    __init__, so a rising edge is accepted exactly when its tick count is
    more than 50 ticks after 0: it is rejected at every tick count from 0
    to 50, and accepted from 51 up to half a tick period. *)
Theorem first_press_needs_51_ticks (a b c : Z) (inputs : list (Z * Z))
        (now : Z) :
  Forall (fun r => r = false) (fst (button_run (init a b c) inputs)) ->
  last_button (snd (button_run (init a b c) inputs)) = 0 ->
  let s := snd (button_run (init a b c) inputs) in
  button_debounce_time s = 0 /\
  (fst (read_button s 1 now) = true <-> ticks_diff now 0 > 50) /\
  (0 <= now <= 50 -> fst (read_button s 1 now) = false) /\
  (50 < now < TICKS_PERIOD / 2 -> fst (read_button s 1 now) = true).
Proof.
  intros Hrej Hlow s.
  assert (Ht : button_debounce_time s = 0)
    by (unfold s; rewrite button_run_rejected by assumption; reflexivity).
  assert (Hiff : fst (read_button s 1 now) = true <-> ticks_diff now 0 > 50).
  { rewrite read_button_true_iff, Ht. fold s in Hlow. tauto. }
  split; [exact Ht |]. split; [exact Hiff |].
  change (TICKS_PERIOD / 2) with (2 ^ 29). split; intros Hnow.
  - apply not_true_is_false. intros E.
    apply Hiff in E. rewrite ticks_diff_small in E
      by (change (TICKS_PERIOD / 2) with (2 ^ 29); lia). lia.
  - apply Hiff. rewrite ticks_diff_small
      by (change (TICKS_PERIOD / 2) with (2 ^ 29); lia). lia.
Qed.

Lemma first_press_needs_51_ticks_witness :
  fst (read_button (snd (button_run (init 0 0 1) [(1, 3); (0, 9)])) 1 20)
    = false /\
  fst (read_button (snd (button_run (init 0 0 1) [(1, 3); (0, 9)])) 1 51)
    = true.
Proof.
  split.
  - apply (first_press_needs_51_ticks 0 0 1 [(1, 3); (0, 9)] 20).
    + repeat constructor.
    + reflexivity.
    + lia.
  - apply (first_press_needs_51_ticks 0 0 1 [(1, 3); (0, 9)] 51).
    + repeat constructor.
    + reflexivity.
    + vm_compute. split; reflexivity.
Defined.

(** ** The counter accessors *)

(** C7: reset_counter sets the counter to 0 and leaves every other
    attribute as it was, so get_counter then returns 0. *)
Theorem reset_counter_only_clears_counter (s : EC11) :
  get_counter (reset_counter s) = 0 /\
  step_accumulator (reset_counter s) = step_accumulator s /\
  last_state (reset_counter s) = last_state s /\
  last_button (reset_counter s) = last_button s /\
  button_debounce_time (reset_counter s) = button_debounce_time s.
Proof. repeat split. Qed.

(** ** Transitions with no event *)

(** C8: when the table index is 0, 5, 10 or 15 (same state) or 6 or 9
    (both bits changed), the delta looked up is 0, and read_rotation
    returns 0 without raising and leaves the counter and the accumulator
    unchanged. *)
Theorem no_event_indices (s : EC11) (a b : Z) :
  In (index s a b) [0; 5; 10; 15; 6; 9] ->
  direction s a b = Ok 0 /\
  exists s',
    read_rotation s a b = Ok (0, s') /\
    counter s' = counter s /\
    step_accumulator s' = step_accumulator s.
Proof.
  intros Hin.
  assert (Hd : direction s a b = Ok 0).
  { unfold direction. simpl in Hin.
    destruct Hin as [<- | [<- | [<- | [<- | [<- | [<- | []]]]]]]; reflexivity. }
  split; [exact Hd |].
  rewrite (read_rotation_outcome _ _ _ _ Hd). unfold rotation_outcome. simpl.
  eexists. split; [reflexivity |]. simpl. lia.
Qed.

Lemma no_event_indices_witness :
  direction (mkEC11 1 5 2 0 0) 1 0 = Ok 0 /\
  exists s',
    read_rotation (mkEC11 1 5 2 0 0) 1 0 = Ok (0, s') /\
    counter s' = 5 /\
    step_accumulator s' = 2.
Proof.
  apply (no_event_indices (mkEC11 1 5 2 0 0) 1 0).
  vm_compute. right. right. right. right. left. reflexivity.
Defined.

(** ** Safety *)

Lemma wf_read_button (s : EC11) (c now : Z) :
  wf s -> wf (snd (read_button s c now)).
Proof.
  unfold wf. rewrite read_button_state.
  destruct (fst (read_button s c now)); exact (fun H => H).
Qed.

Lemma wf_reset_counter (s : EC11) : wf s -> wf (reset_counter s).
Proof. exact (fun H => H). Qed.

(** One iteration of the polling loop on in-contract levels completes and
    keeps the remembered state a 2-bit value. *)
Lemma poll_total (s : EC11) (a b c now : Z) :
  wf s -> level a -> level b ->
  exists out s', poll s a b c now = Ok (out, s') /\ wf s'.
Proof.
  intros Hs Ha Hb.
  destruct (read_rotation_total s a b Hs Ha Hb) as (r & s1 & Hr).
  assert (H1 : wf s1) by exact (wf_read_rotation s a b r s1 Ha Hb Hr).
  unfold poll. rewrite Hr. cbn [bind fst snd].
  destruct (fst (read_button s1 c now)); do 2 eexists;
    (split; [reflexivity |]).
  - apply wf_reset_counter, wf_read_button, H1.
  - apply wf_read_button, H1.
Qed.

(** C9: with both rotation pin levels 0 or 1 and the remembered state in
    [0, 3], the table index is in [0, 15], the lookup finds the entry at
    that index, read_rotation returns -1, 0 or 1 and remembers a state in
    [0, 3] again; read_button and reset_counter keep that range, and a
    loop iteration, which calls all four methods, completes without an
    exception. *)
Theorem in_contract_calls_are_safe (s : EC11) (a b c now : Z) :
  wf s ->
  level a ->
  level b ->
  level c ->
  0 <= index s a b <= 15 /\
  (exists d, nth_error state_table (Z.to_nat (index s a b)) = Some d /\
             direction s a b = Ok d) /\
  (exists r s', read_rotation s a b = Ok (r, s') /\
                (r = -1 \/ r = 0 \/ r = 1) /\
                wf s') /\
  wf (snd (read_button s c now)) /\
  wf (reset_counter s) /\
  get_counter s = counter s /\
  (exists out s', poll s a b c now = Ok (out, s') /\ wf s').
Proof.
  intros Hs Ha Hb Hc.
  split; [apply index_range; assumption |].
  split.
  { pose proof Hs as Hs'. pose proof Ha as Ha'. pose proof Hb as Hb'.
    unfold direction, index.
    enumerate_inputs Hs' Ha' Hb'; rewrite Hs', Ha', Hb';
      eexists; split; reflexivity. }
  split.
  { destruct (read_rotation_total s a b Hs Ha Hb) as (r & s' & Hr).
    exists r, s'. split; [exact Hr |]. split.
    - pose proof Hr as Hr'.
      apply read_rotation_inv in Hr' as (d & _ & Ho).
      pose proof (outcome_returned s a b d) as Hv. rewrite Ho in Hv. exact Hv.
    - exact (wf_read_rotation s a b r s' Ha Hb Hr). }
  split; [apply wf_read_button, Hs |].
  split; [apply wf_reset_counter, Hs |].
  split; [reflexivity |].
  apply poll_total; assumption.
Qed.

Lemma in_contract_calls_are_safe_witness :
  0 <= index (mkEC11 3 0 3 0 0) 0 1 <= 15 /\
  (exists d, nth_error state_table (Z.to_nat (index (mkEC11 3 0 3 0 0) 0 1))
               = Some d /\
             direction (mkEC11 3 0 3 0 0) 0 1 = Ok d) /\
  (exists r s', read_rotation (mkEC11 3 0 3 0 0) 0 1 = Ok (r, s') /\
                (r = -1 \/ r = 0 \/ r = 1) /\
                wf s') /\
  wf (snd (read_button (mkEC11 3 0 3 0 0) 1 60)) /\
  wf (reset_counter (mkEC11 3 0 3 0 0)) /\
  get_counter (mkEC11 3 0 3 0 0) = 0 /\
  (exists out s', poll (mkEC11 3 0 3 0 0) 0 1 1 60 = Ok (out, s') /\ wf s').
Proof.
  apply (in_contract_calls_are_safe (mkEC11 3 0 3 0 0) 0 1 1 60);
    auto with ec11.
  unfold wf. simpl. lia.
Defined.

(** * Further properties of the driver *)

(** ** The table as a rule on pin levels *)

Lemma direction_rule (s : EC11) (a0 b0 a b : Z) :
  level a0 -> level b0 -> level a -> level b ->
  last_state s = pack a0 b0 ->
  direction s a b = Ok (quadrature_rule a0 b0 a b).
Proof.
  intros Ha0 Hb0 Ha Hb Hq. unfold direction, index. rewrite Hq.
  destruct Ha0 as [-> | ->]; destruct Hb0 as [-> | ->];
    destruct Ha as [-> | ->]; destruct Hb as [-> | ->]; reflexivity.
Qed.

Lemma quadrature_rule_reverse (a0 b0 a b : Z) :
  level a0 -> level b0 -> level a -> level b ->
  quadrature_rule a b a0 b0 = - quadrature_rule a0 b0 a b.
Proof.
  intros [-> | ->] [-> | ->] [-> | ->] [-> | ->]; reflexivity.
Qed.

(** The delta looked up by read_rotation is the one of the quadrature rule
    on the previous and current pin levels: non-zero exactly when one pin,
    and only one, changed; and the reverse transition looks up the
    opposite delta. *)
Theorem table_follows_quadrature_rule (s : EC11) (a0 b0 a b : Z) :
  level a0 -> level b0 -> level a -> level b ->
  last_state s = pack a0 b0 ->
  direction s a b = Ok (quadrature_rule a0 b0 a b) /\
  (quadrature_rule a0 b0 a b <> 0 <->
   (a <> a0 /\ b = b0) \/ (a = a0 /\ b <> b0)) /\
  direction (set_last_state s (pack a b)) a0 b0
    = Ok (- quadrature_rule a0 b0 a b).
Proof.
  intros Ha0 Hb0 Ha Hb Hq. split; [apply direction_rule; assumption |]. split.
  - destruct Ha0 as [-> | ->]; destruct Hb0 as [-> | ->];
      destruct Ha as [-> | ->]; destruct Hb as [-> | ->];
      vm_compute; split; intros H;
      try (exfalso; apply H; reflexivity);
      try (destruct H as [[H1 H2] | [H1 H2]]; congruence);
      try discriminate;
      try (left; split; [discriminate | reflexivity]);
      try (right; split; [reflexivity | discriminate]).
  - rewrite <- quadrature_rule_reverse by assumption.
    apply direction_rule; try assumption. reflexivity.
Qed.

Lemma table_follows_quadrature_rule_witness :
  direction (init 1 0 0) 1 1 = Ok 1 /\
  (quadrature_rule 1 0 1 1 <> 0 <->
   (1 <> 1 /\ 1 = 0) \/ (1 = 1 /\ 1 <> 0)) /\
  direction (set_last_state (init 1 0 0) (pack 1 1)) 1 0 = Ok (-1).
Proof.
  apply (table_follows_quadrature_rule (init 1 0 0) 1 0 1 1);
    auto with ec11.
Defined.

(** ** Where read_rotation raises *)

Lemma land_shiftl_low (q c : Z) :
  0 <= c < 4 -> Z.land (Z.shiftl q 2) c = 0.
Proof.
  intros Hc. apply Z.bits_inj'. intros n Hn.
  rewrite Z.land_spec, Z.bits_0.
  destruct (Z.ltb_spec n 2) as [Hlt | Hge].
  - rewrite Z.shiftl_spec_low by assumption. reflexivity.
  - replace (Z.testbit c n) with false; [apply andb_false_r |].
    symmetry. destruct (Z.eq_dec c 0) as [-> | Hnz]; [apply Z.bits_0 |].
    apply Z.bits_above_log2; [lia |].
    apply Z.lt_le_trans with 2; [| assumption].
    apply Z.log2_lt_pow2; lia.
Qed.

Lemma lor_shiftl_low (q c : Z) :
  0 <= c < 4 -> Z.lor (Z.shiftl q 2) c = 4 * q + c.
Proof.
  intros Hc.
  pose proof (Z.add_lor_land (Z.shiftl q 2) c) as H.
  rewrite (land_shiftl_low q c Hc) in H.
  rewrite Z.shiftl_mul_pow2 in H by lia.
  rewrite Z.shiftl_mul_pow2 by lia. change (2 ^ 2) with 4 in *. lia.
Qed.

Lemma pack_arith (a b : Z) : level a -> level b -> pack a b = 2 * a + b.
Proof. intros [-> | ->] [-> | ->]; reflexivity. Qed.

Lemma index_arith (s : EC11) (a b : Z) :
  level a -> level b -> index s a b = 4 * last_state s + 2 * a + b.
Proof.
  intros Ha Hb. unfold index.
  pose proof (pack_range a b Ha Hb) as Hr.
  rewrite lor_shiftl_low by lia. rewrite pack_arith by assumption. lia.
Qed.

Lemma py_getitem_table_raises (i : Z) :
  py_getitem state_table i = Raise IndexError <-> i < -16 \/ 16 <= i.
Proof.
  unfold py_getitem. change (Z.of_nat (length state_table)) with 16.
  destruct (i <? 0) eqn:Ei;
    [apply Z.ltb_lt in Ei | apply Z.ltb_ge in Ei].
  - destruct ((0 <=? i + 16) && (i + 16 <? 16)) eqn:Er.
    + apply andb_prop in Er as [E1 E2].
      apply Z.leb_le in E1. apply Z.ltb_lt in E2.
      destruct (nth_error state_table (Z.to_nat (i + 16))) eqn:En.
      * split; [discriminate | lia].
      * apply nth_error_None in En. simpl in En. lia.
    + apply andb_false_iff in Er as [E | E];
        [apply Z.leb_gt in E | apply Z.ltb_ge in E];
        split; (reflexivity || lia).
  - destruct ((0 <=? i) && (i <? 16)) eqn:Er.
    + apply andb_prop in Er as [E1 E2].
      apply Z.leb_le in E1. apply Z.ltb_lt in E2.
      destruct (nth_error state_table (Z.to_nat i)) eqn:En.
      * split; [discriminate | lia].
      * apply nth_error_None in En. simpl in En. lia.
    + apply andb_false_iff in Er as [E | E];
        [apply Z.leb_gt in E | apply Z.ltb_ge in E];
        split; (reflexivity || lia).
Qed.

(** With pin levels 0 or 1, the table index is 4 * last_state + 2 * a + b,
    and read_rotation raises IndexError exactly when the remembered state
    is below -4 or above 3: a remembered state from -4 to -1 is accepted
    by Python's negative indexing. *)
Theorem read_rotation_raises_iff (s : EC11) (a b : Z) :
  level a -> level b ->
  index s a b = 4 * last_state s + 2 * a + b /\
  (read_rotation s a b = Raise IndexError <->
   last_state s < -4 \/ 3 < last_state s).
Proof.
  intros Ha Hb. split; [apply index_arith; assumption |].
  pose proof (index_arith s a b Ha Hb) as Hi.
  pose proof (py_getitem_table_raises (index s a b)) as Hp.
  fold (direction s a b) in Hp.
  assert (Hab : 0 <= 2 * a + b <= 3)
    by (destruct Ha as [-> | ->]; destruct Hb as [-> | ->]; lia).
  destruct (direction s a b) as [d | e] eqn:Hd.
  - rewrite (read_rotation_outcome _ _ _ _ Hd).
    split; [discriminate |]. intros H.
    assert (Hr : index s a b < -16 \/ 16 <= index s a b) by lia.
    apply Hp in Hr. discriminate.
  - rewrite (read_rotation_raises _ _ _ _ Hd). destruct e.
    split; [| reflexivity]. intros _.
    assert (Hr : index s a b < -16 \/ 16 <= index s a b)
      by (apply Hp; reflexivity).
    lia.
Qed.

Lemma read_rotation_raises_iff_witness :
  index (mkEC11 4 0 0 0 0) 1 0 = 4 * 4 + 2 * 1 + 0 /\
  (read_rotation (mkEC11 4 0 0 0 0) 1 0 = Raise IndexError <->
   4 < -4 \/ 3 < 4).
Proof.
  apply (read_rotation_raises_iff (mkEC11 4 0 0 0 0) 1 0); auto with ec11.
Defined.

(** ** Bounce between two neighbouring states *)

Lemma outcome_quiet (s : EC11) (a b d : Z) :
  Z.abs (step_accumulator s + d) < 4 ->
  rotation_outcome s a b d =
    (0, mkEC11 (pack a b) (counter s + d) (step_accumulator s + d)
               (last_button s) (button_debounce_time s)).
Proof.
  intros H. unfold rotation_outcome.
  replace (Z.abs (step_accumulator s + d) >=? 4) with false.
  - rewrite andb_false_r. reflexivity.
  - symmetry. rewrite Z.geb_leb. apply Z.leb_gt. exact H.
Qed.

Lemma quadrature_rule_values (a0 b0 a b : Z) :
  let d := quadrature_rule a0 b0 a b in d = -1 \/ d = 0 \/ d = 1.
Proof.
  unfold quadrature_rule.
  destruct (Bool.eqb (a =? a0) (b =? b0)); [| destruct (a =? b0)]; lia.
Qed.

(** A sample that moves away from the remembered pin levels and the next
    one that moves back to them both return 0 and restore the whole state,
    counter and accumulator included, as long as the accumulator was
    within [-2, 2]: contact bounce across one edge leaves no trace. *)
Theorem bounce_leaves_no_trace (s : EC11) (a0 b0 a b : Z) :
  level a0 -> level b0 -> level a -> level b ->
  last_state s = pack a0 b0 ->
  Z.abs (step_accumulator s) <= 2 ->
  exists s1,
    read_rotation s a b = Ok (0, s1) /\
    read_rotation s1 a0 b0 = Ok (0, s).
Proof.
  intros Ha0 Hb0 Ha Hb Hq Hacc.
  pose proof (direction_rule s a0 b0 a b Ha0 Hb0 Ha Hb Hq) as Hd.
  pose proof (quadrature_rule_values a0 b0 a b) as Hv. simpl in Hv.
  set (d := quadrature_rule a0 b0 a b) in *.
  rewrite (read_rotation_outcome _ _ _ _ Hd), outcome_quiet by lia.
  eexists. split; [reflexivity |].
  match goal with |- read_rotation ?s1 _ _ = _ => set (s1' := s1) end.
  assert (Hd' : direction s1' a0 b0 = Ok (- d)).
  { unfold d. rewrite <- quadrature_rule_reverse by assumption.
    apply direction_rule; try assumption. reflexivity. }
  rewrite (read_rotation_outcome _ _ _ _ Hd'), outcome_quiet
    by (unfold s1'; simpl; lia).
  unfold s1'. simpl. rewrite <- Hq.
  replace (counter s + d + - d) with (counter s) by lia.
  replace (step_accumulator s + d + - d) with (step_accumulator s) by lia.
  destruct s; reflexivity.
Qed.

Lemma bounce_leaves_no_trace_witness :
  exists s1,
    read_rotation (mkEC11 1 6 2 0 0) 1 1 = Ok (0, s1) /\
    read_rotation s1 0 1 = Ok (0, mkEC11 1 6 2 0 0).
Proof.
  apply (bounce_leaves_no_trace (mkEC11 1 6 2 0 0) 0 1 1 1);
    auto with ec11.
  simpl. lia.
Defined.

(** ** Detents and the counter *)

Lemma outcome_balance (s : EC11) (a b d : Z) :
  Z.abs (step_accumulator s) <= 3 ->
  d = -1 \/ d = 0 \/ d = 1 ->
  let r := fst (rotation_outcome s a b d) in
  let s' := snd (rotation_outcome s a b d) in
  counter s' - step_accumulator s'
    = counter s - step_accumulator s + 4 * r /\
  (r = 0 \/ r = d).
Proof.
  intros Hacc Hd. unfold rotation_outcome.
  destruct (negb (d =? 0) && (Z.abs (step_accumulator s + d) >=? 4)) eqn:E;
    simpl.
  - apply andb_prop in E as [_ E]. rewrite Z.geb_leb in E.
    apply Z.leb_le in E.
    destruct (step_accumulator s + d >? 0) eqn:Eg;
      rewrite Z.gtb_ltb in Eg;
      [apply Z.ltb_lt in Eg | apply Z.ltb_ge in Eg]; lia.
  - lia.
Qed.

Lemma outcome_rate (s : EC11) (a b d : Z) :
  d = -1 \/ d = 0 \/ d = 1 ->
  let r := fst (rotation_outcome s a b d) in
  let s' := snd (rotation_outcome s a b d) in
  (if r =? 0 then 0 else 4) + Z.abs (step_accumulator s')
    <= 1 + Z.abs (step_accumulator s).
Proof.
  intros Hd. unfold rotation_outcome.
  destruct (negb (d =? 0) && (Z.abs (step_accumulator s + d) >=? 4)) eqn:E;
    cbn [fst snd step_accumulator].
  - apply andb_prop in E as [_ E]. rewrite Z.geb_leb in E.
    apply Z.leb_le in E.
    destruct (step_accumulator s + d >? 0);
      [change (1 =? 0) with false | change (-1 =? 0) with false];
      cbv iota; lia.
  - change (0 =? 0) with true. cbv iota. lia.
Qed.

Lemma count_detents_cons (r : Z) (rs : list Z) :
  count_detents (r :: rs) = (if r =? 0 then 0 else 1) + count_detents rs.
Proof.
  unfold count_detents. cbn [filter].
  destruct (r =? 0); cbn [negb length]; rewrite ?Nat2Z.inj_succ; lia.
Qed.

Lemma rotation_trace_balance (ls : list (Z * Z)) :
  forall s tr,
    Z.abs (step_accumulator s) <= 3 ->
    rotation_trace s ls = Ok tr ->
    counter (final_state s tr) - step_accumulator (final_state s tr)
      = counter s - step_accumulator s + 4 * net_detents (map returned tr) /\
    Forall (fun e => returned e = 0 \/ returned e = delta e) tr.
Proof.
  induction ls as [| [a b] rest IH]; intros s tr Hacc H.
  - simpl in H. injection H as <-. unfold final_state, net_detents. simpl.
    split; [lia | constructor].
  - apply rotation_trace_inv in H as (d & tr' & Hd & Htr' & ->).
    pose proof (direction_values _ _ _ _ Hd) as Hv.
    pose proof (outcome_balance s a b d Hacc Hv) as [Hbal Hret].
    pose proof (outcome_bounded s a b d Hacc Hv) as Hacc'.
    destruct (IH _ _ Hacc' Htr') as [IHbal IHret].
    rewrite final_state_cons. simpl post. simpl map.
    split.
    + unfold net_detents in *. simpl fold_right. lia.
    + constructor; [exact Hret | exact IHret].
Qed.

Lemma rotation_trace_rate (ls : list (Z * Z)) :
  forall s tr,
    rotation_trace s ls = Ok tr ->
    4 * count_detents (map returned tr)
      + Z.abs (step_accumulator (final_state s tr))
      <= Z.of_nat (length ls) + Z.abs (step_accumulator s).
Proof.
  induction ls as [| [a b] rest IH]; intros s tr H.
  - simpl in H. injection H as <-. unfold final_state, count_detents.
    simpl. lia.
  - apply rotation_trace_inv in H as (d & tr' & Hd & Htr' & ->).
    pose proof (direction_values _ _ _ _ Hd) as Hv.
    pose proof (outcome_rate s a b d Hv) as Hr. cbv zeta in Hr.
    pose proof (IH _ _ Htr') as IHr.
    rewrite final_state_cons. simpl post. simpl map.
    rewrite count_detents_cons. simpl length. rewrite Nat2Z.inj_succ.
    destruct (fst (rotation_outcome s a b d) =? 0); lia.
Qed.

(** Along every sequence of calls on in-contract pin levels, started with
    the accumulator within [-3, 3], the counter minus the accumulator
    moves by exactly four per detent reported: the counter counts quarter
    steps, four to a detent, and the accumulator holds the odd ones. *)
Theorem counter_is_four_per_detent (s : EC11) (ls : list (Z * Z)) :
  wf s ->
  Forall levels ls ->
  Z.abs (step_accumulator s) <= 3 ->
  exists tr,
    rotation_trace s ls = Ok tr /\
    get_counter (final_state s tr) - step_accumulator (final_state s tr)
      = get_counter s - step_accumulator s
        + 4 * net_detents (map returned tr).
Proof.
  intros Hs Hls Hacc.
  destruct (rotation_trace_total ls s Hs Hls) as (tr & Htr).
  exists tr. split; [exact Htr |].
  apply (rotation_trace_balance ls s tr Hacc Htr).
Qed.

Lemma counter_is_four_per_detent_witness :
  exists tr,
    rotation_trace (init 0 0 0)
      [(1, 0); (1, 1); (0, 1); (0, 0); (1, 0); (1, 1); (1, 0)] = Ok tr /\
    get_counter (final_state (init 0 0 0) tr)
      - step_accumulator (final_state (init 0 0 0) tr)
      = 0 - 0 + 4 * net_detents (map returned tr).
Proof.
  apply (counter_is_four_per_detent (init 0 0 0)
           [(1, 0); (1, 1); (0, 1); (0, 0); (1, 0); (1, 1); (1, 0)]).
  - auto with ec11.
  - in_contract.
  - simpl. lia.
Defined.

(** Along every such sequence, a call that reports a detent reports the
    direction of the step it has just looked up: read_rotation never
    returns +1 on a -1 step, nor -1 on a +1 step, nor a direction on a
    call that saw no step. *)
Theorem detent_has_direction_of_its_last_step (s : EC11)
        (ls : list (Z * Z)) :
  wf s ->
  Forall levels ls ->
  Z.abs (step_accumulator s) <= 3 ->
  exists tr,
    rotation_trace s ls = Ok tr /\
    Forall (fun e => returned e = 0 \/ returned e = delta e) tr.
Proof.
  intros Hs Hls Hacc.
  destruct (rotation_trace_total ls s Hs Hls) as (tr & Htr).
  exists tr. split; [exact Htr |].
  apply (rotation_trace_balance ls s tr Hacc Htr).
Qed.

Lemma detent_has_direction_of_its_last_step_witness :
  exists tr,
    rotation_trace (mkEC11 0 0 (-3) 0 0) [(0, 1); (0, 0); (0, 1)] = Ok tr /\
    Forall (fun e => returned e = 0 \/ returned e = delta e) tr.
Proof.
  apply (detent_has_direction_of_its_last_step (mkEC11 0 0 (-3) 0 0)
           [(0, 1); (0, 0); (0, 1)]).
  - unfold wf. simpl. lia.
  - in_contract.
  - simpl. lia.
Defined.

(** Detents cannot be reported faster than one per four calls: over any
    sequence of calls on in-contract pin levels, four times the number of
    calls that returned a direction, plus what is left in the accumulator,
    is at most the number of calls plus what the accumulator held. *)
Theorem at_most_one_detent_per_four_calls (s : EC11) (ls : list (Z * Z)) :
  wf s ->
  Forall levels ls ->
  exists tr,
    rotation_trace s ls = Ok tr /\
    4 * count_detents (map returned tr)
      + Z.abs (step_accumulator (final_state s tr))
      <= Z.of_nat (length ls) + Z.abs (step_accumulator s).
Proof.
  intros Hs Hls.
  destruct (rotation_trace_total ls s Hs Hls) as (tr & Htr).
  exists tr. split; [exact Htr |].
  apply (rotation_trace_rate ls s tr Htr).
Qed.

Lemma at_most_one_detent_per_four_calls_witness :
  exists tr,
    rotation_trace (init 0 0 0)
      [(1, 0); (1, 1); (0, 1); (0, 0); (1, 0); (0, 0)] = Ok tr /\
    4 * count_detents (map returned tr)
      + Z.abs (step_accumulator (final_state (init 0 0 0) tr))
      <= 6 + Z.abs 0.
Proof.
  apply (at_most_one_detent_per_four_calls (init 0 0 0)
           [(1, 0); (1, 1); (0, 1); (0, 0); (1, 0); (0, 0)]).
  - auto with ec11.
  - in_contract.
Defined.

(** The detent lemma of the claims section, on the table's own +1 cycle
    0 -> 2 -> 3 -> 1 -> 0. *)
Lemma four_steps_one_detent_witness :
  map returned
      [mkSample 1 0 (mkEC11 2 1 1 0 0); mkSample 1 0 (mkEC11 3 2 2 0 0);
       mkSample 1 0 (mkEC11 1 3 3 0 0); mkSample 1 1 (mkEC11 0 4 0 0 0)]
    = [0; 0; 0; 1] /\
  step_accumulator
    (final_state (init 0 0 0)
       [mkSample 1 0 (mkEC11 2 1 1 0 0); mkSample 1 0 (mkEC11 3 2 2 0 0);
        mkSample 1 0 (mkEC11 1 3 3 0 0); mkSample 1 1 (mkEC11 0 4 0 0 0)])
    = 0.
Proof.
  apply (four_steps_one_detent (init 0 0 0)
           [(1, 0); (1, 1); (0, 1); (0, 0)] _ 1).
  - left. reflexivity.
  - reflexivity.
  - reflexivity.
  - reflexivity.
Defined.

(** ** Rotation and button do not interfere *)

Lemma direction_same_rotation (s s' : EC11) (a b : Z) :
  same_rotation s s' -> direction s a b = direction s' a b.
Proof. intros [Hq _]. unfold direction, index. rewrite Hq. reflexivity. Qed.

Lemma outcome_same_rotation (s s' : EC11) (a b d : Z) :
  same_rotation s s' ->
  fst (rotation_outcome s a b d) = fst (rotation_outcome s' a b d) /\
  same_rotation (snd (rotation_outcome s a b d))
                (snd (rotation_outcome s' a b d)).
Proof.
  intros [_ Hacc]. unfold rotation_outcome, same_rotation. rewrite Hacc.
  destruct (negb (d =? 0) && (Z.abs (step_accumulator s' + d) >=? 4));
    simpl; auto.
Qed.

Lemma returns_same_rotation (ls : list (Z * Z)) :
  forall s s', same_rotation s s' -> returns s ls = returns s' ls.
Proof.
  unfold returns.
  induction ls as [| [a b] rest IH]; intros s s' Hsame; [reflexivity |].
  simpl. rewrite <- (direction_same_rotation s s' a b Hsame).
  destruct (direction s a b) as [d | e] eqn:Hd; [| reflexivity].
  assert (Hd' : direction s' a b = Ok d)
    by (rewrite <- (direction_same_rotation s s' a b Hsame); exact Hd).
  simpl. rewrite (read_rotation_outcome _ _ _ _ Hd),
    (read_rotation_outcome _ _ _ _ Hd'). simpl.
  destruct (outcome_same_rotation s s' a b d Hsame) as [Hr Hsame'].
  specialize (IH _ _ Hsame'). rewrite Hr.
  destruct (rotation_trace (snd (rotation_outcome s a b d)) rest);
    destruct (rotation_trace (snd (rotation_outcome s' a b d)) rest);
    simpl in *; congruence.
Qed.

Lemma read_button_same_rotation (s : EC11) (c now : Z) :
  same_rotation (snd (read_button s c now)) s.
Proof.
  rewrite read_button_state.
  destruct (fst (read_button s c now)); split; reflexivity.
Qed.

(** What read_rotation returns, now and on every later call, depends only
    on the remembered state and the accumulator: a reset of the counter or
    a call of read_button in between changes none of the values returned,
    and where one run raises so does the other. *)
Theorem detents_ignore_counter_and_button (s s' : EC11)
        (ls : list (Z * Z)) (c now : Z) :
  last_state s = last_state s' ->
  step_accumulator s = step_accumulator s' ->
  returns s ls = returns s' ls /\
  returns (reset_counter s) ls = returns s ls /\
  returns (snd (read_button s c now)) ls = returns s ls.
Proof.
  intros Hq Hacc. split; [| split].
  - apply returns_same_rotation. split; assumption.
  - apply returns_same_rotation. split; reflexivity.
  - apply returns_same_rotation, read_button_same_rotation.
Qed.

Lemma detents_ignore_counter_and_button_witness :
  returns (mkEC11 1 7 3 0 0) [(0, 0); (0, 1)]
    = returns (mkEC11 1 (-2) 3 1 900) [(0, 0); (0, 1)] /\
  returns (reset_counter (mkEC11 1 7 3 0 0)) [(0, 0); (0, 1)]
    = returns (mkEC11 1 7 3 0 0) [(0, 0); (0, 1)] /\
  returns (snd (read_button (mkEC11 1 7 3 0 0) 1 60)) [(0, 0); (0, 1)]
    = returns (mkEC11 1 7 3 0 0) [(0, 0); (0, 1)].
Proof.
  apply (detents_ignore_counter_and_button
           (mkEC11 1 7 3 0 0) (mkEC11 1 (-2) 3 1 900)
           [(0, 0); (0, 1)] 1 60); reflexivity.
Defined.

(** read_rotation and read_button commute: called in either order on the
    same readings they return the same two values and leave the same
    state; and if read_rotation raises, it raises in either order. *)
Theorem rotation_and_button_commute (s : EC11) (a b c now : Z) :
  match read_rotation s a b with
  | Ok (r, s1) =>
      read_rotation (snd (read_button s c now)) a b
        = Ok (r, snd (read_button s1 c now)) /\
      fst (read_button s1 c now) = fst (read_button s c now)
  | Raise e =>
      read_rotation (snd (read_button s c now)) a b = Raise e
  end.
Proof.
  pose proof (read_button_same_rotation s c now) as Hsame.
  pose proof (direction_same_rotation _ _ a b Hsame) as Hdir.
  destruct (direction s a b) as [d | e] eqn:Hd.
  - rewrite (read_rotation_outcome _ _ _ _ Hd),
      (read_rotation_outcome _ _ _ _ Hdir).
    destruct (rotation_outcome s a b d) as [r s1] eqn:Ho.
    assert (Hb : fst (read_button s1 c now) = fst (read_button s c now)).
    { assert (Hsb : same_button s1 s).
      { replace s1 with (snd (rotation_outcome s a b d))
          by (rewrite Ho; reflexivity).
        unfold rotation_outcome, same_button.
        destruct (negb (d =? 0) && (Z.abs (step_accumulator s + d) >=? 4));
          simpl; auto. }
      destruct Hsb as [Hl Ht]. unfold read_button. rewrite Hl, Ht.
      destruct ((last_button s =? 0) && (c =? 1));
        [destruct (ticks_diff now (button_debounce_time s) >? 50) |];
        reflexivity. }
    split; [| exact Hb]. f_equal.
    rewrite (read_button_state s1), Hb.
    rewrite (read_button_state s) in *.
    unfold rotation_outcome in *.
    destruct (fst (read_button s c now)); simpl in *;
      destruct (negb (d =? 0) && (Z.abs (step_accumulator s + d) >=? 4));
      injection Ho as <- <-; reflexivity.
  - rewrite (read_rotation_raises _ _ _ _ Hd),
      (read_rotation_raises _ _ _ _ Hdir). reflexivity.
Qed.

(** ** The button, held and bounced *)

Lemma button_run_held (inputs : list (Z * Z)) :
  forall s,
    last_button s <> 0 ->
    Forall (fun i => fst i <> 0) inputs ->
    Forall (fun r => r = false) (fst (button_run s inputs)) /\
    button_debounce_time (snd (button_run s inputs)) = button_debounce_time s.
Proof.
  induction inputs as [| [c now] rest IH]; intros s Hl Hin.
  - split; [constructor | reflexivity].
  - inversion Hin as [| x l Hc Hrest]; subst. simpl in Hc.
    assert (E : read_button s c now =
                (false, mkEC11 (last_state s) (counter s)
                               (step_accumulator s) c
                               (button_debounce_time s)))
      by (apply read_button_reject; right; left; exact Hl).
    simpl. rewrite E. simpl.
    destruct (IH (mkEC11 (last_state s) (counter s) (step_accumulator s) c
                         (button_debounce_time s)) Hc Hrest) as [IH1 IH2].
    split; [constructor; [reflexivity | exact IH1] | exact IH2].
Qed.

(** A button that stays down is reported at most once: after any call of
    read_button that read the level 1, accepted or not, every further
    call that reads 1 returns false, at whatever tick count, and the time
    of the last accepted press does not move. *)
Theorem held_button_is_not_repeated (s : EC11) (now : Z)
        (inputs : list (Z * Z)) :
  Forall (fun i => fst i = 1) inputs ->
  let s1 := snd (read_button s 1 now) in
  Forall (fun r => r = false) (fst (button_run s1 inputs)) /\
  button_debounce_time (snd (button_run s1 inputs))
    = button_debounce_time s1.
Proof.
  intros Hin s1. apply button_run_held.
  - unfold s1. rewrite read_button_state.
    destruct (fst (read_button s 1 now)); simpl; discriminate.
  - eapply Forall_impl; [| exact Hin]. simpl. intros i Hi. rewrite Hi.
    discriminate.
Qed.

Lemma held_button_is_not_repeated_witness :
  Forall (fun r => r = false)
    (fst (button_run (snd (read_button (init 0 0 0) 1 100))
                     [(1, 101); (1, 160); (1, 5000)])) /\
  button_debounce_time
    (snd (button_run (snd (read_button (init 0 0 0) 1 100))
                     [(1, 101); (1, 160); (1, 5000)]))
    = button_debounce_time (snd (read_button (init 0 0 0) 1 100)).
Proof.
  apply (held_button_is_not_repeated (init 0 0 0) 100
           [(1, 101); (1, 160); (1, 5000)]).
  repeat constructor.
Defined.

(** A press whose rising edge falls inside the debounce window is lost:
    the rejected call still records the level 1, so however long the
    button is then held, no call reports it. *)
Theorem press_inside_window_is_lost (s : EC11) (now : Z)
        (inputs : list (Z * Z)) :
  last_button s = 0 ->
  ticks_diff now (button_debounce_time s) <= 50 ->
  Forall (fun i => fst i = 1) inputs ->
  Forall (fun r => r = false) (fst (button_run s ((1, now) :: inputs))).
Proof.
  intros Hl Ht Hin.
  assert (E : read_button s 1 now =
              (false, mkEC11 (last_state s) (counter s)
                             (step_accumulator s) 1
                             (button_debounce_time s)))
    by (apply read_button_reject; right; right; exact Ht).
  simpl. rewrite E. simpl. constructor; [reflexivity |].
  apply button_run_held; [simpl; discriminate |].
  eapply Forall_impl; [| exact Hin]. simpl. intros i Hi. rewrite Hi.
  discriminate.
Qed.

Lemma press_inside_window_is_lost_witness :
  Forall (fun r => r = false)
    (fst (button_run (mkEC11 0 0 0 0 1000)
                     [(1, 1040); (1, 1060); (1, 9000)])).
Proof.
  apply (press_inside_window_is_lost (mkEC11 0 0 0 0 1000) 1040
           [(1, 1060); (1, 9000)]).
  - reflexivity.
  - vm_compute. discriminate.
  - repeat constructor.
Defined.

(** ** Spacing of accepted presses *)

(** Over any sequence of calls of read_button, each accepted press is more
    than 50 ticks after the previous accepted one (the first after the
    time the state started with), and the state ends up holding the tick
    count of the last accepted press. *)
Theorem accepted_presses_are_spaced (inputs : list (Z * Z)) :
  forall s,
    spaced (button_debounce_time s) (accepted_times s inputs) /\
    button_debounce_time (snd (button_run s inputs))
      = last (accepted_times s inputs) (button_debounce_time s) /\
    length (accepted_times s inputs)
      = length (filter (fun r => r) (fst (button_run s inputs))).
Proof.
  induction inputs as [| [c now] rest IH]; intros s.
  - simpl. auto.
  - simpl. pose proof (read_button_state s c now) as Hst.
    pose proof (read_button_true_iff s c now) as Hiff.
    destruct (IH (snd (read_button s c now))) as (IH1 & IH2 & IH3).
    destruct (fst (read_button s c now)) eqn:E.
    + assert (Ht : button_debounce_time (snd (read_button s c now)) = now)
        by (rewrite Hst; reflexivity).
      rewrite Ht in IH1, IH2. split; [| split].
      * simpl. split; [apply Hiff; reflexivity | exact IH1].
      * rewrite IH2.
        destruct (accepted_times (snd (read_button s c now)) rest);
          [reflexivity | exact (last_nonempty _ _ _ _)].
      * simpl. f_equal. exact IH3.
    + assert (Ht : button_debounce_time (snd (read_button s c now))
                   = button_debounce_time s)
        by (rewrite Hst; reflexivity).
      rewrite Ht in IH1, IH2. auto.
Qed.


(** ** The polling loop *)

Lemma read_button_same_button (s s' : EC11) (c now : Z) :
  same_button s s' ->
  fst (read_button s c now) = fst (read_button s' c now) /\
  same_button (snd (read_button s c now)) (snd (read_button s' c now)).
Proof.
  intros [Hl Ht].
  assert (E : fst (read_button s c now) = fst (read_button s' c now)).
  { unfold read_button. rewrite Hl, Ht.
    destruct ((last_button s' =? 0) && (c =? 1));
      [destruct (ticks_diff now (button_debounce_time s') >? 50) |];
      reflexivity. }
  split; [exact E |].
  rewrite (read_button_state s), (read_button_state s'), E.
  destruct (fst (read_button s' c now)); split; simpl; congruence.
Qed.

Lemma button_run_same_button (inputs : list (Z * Z)) :
  forall s s',
    same_button s s' ->
    fst (button_run s inputs) = fst (button_run s' inputs).
Proof.
  induction inputs as [| [c now] rest IH]; intros s s' Hsame; [reflexivity |].
  destruct (read_button_same_button s s' c now Hsame) as [E Hsame'].
  simpl. rewrite E, (IH _ _ Hsame'). reflexivity.
Qed.

Lemma read_rotation_same_button (s : EC11) (a b r : Z) (s1 : EC11) :
  read_rotation s a b = Ok (r, s1) -> same_button s1 s.
Proof.
  intros H. apply read_rotation_inv in H as (d & _ & Ho).
  replace s1 with (snd (rotation_outcome s a b d))
    by (rewrite Ho; reflexivity).
  unfold rotation_outcome, same_button.
  destruct (negb (d =? 0) && (Z.abs (step_accumulator s + d) >=? 4));
    simpl; auto.
Qed.

Lemma read_rotation_returned (s : EC11) (a b r : Z) (s1 : EC11) :
  read_rotation s a b = Ok (r, s1) -> r = -1 \/ r = 0 \/ r = 1.
Proof.
  intros H. apply read_rotation_inv in H as (d & _ & Ho).
  pose proof (outcome_returned s a b d) as Hv. rewrite Ho in Hv. exact Hv.
Qed.

Lemma returns_cons (s : EC11) (a b r : Z) (s1 : EC11)
      (rest : list (Z * Z)) :
  read_rotation s a b = Ok (r, s1) ->
  returns s ((a, b) :: rest) = (rs <- returns s1 rest ;; Ok (r :: rs)).
Proof.
  intros H. unfold returns. simpl.
  destruct (read_rotation_inv _ _ _ _ _ H) as (d & Hd & _).
  rewrite Hd, H. simpl.
  destruct (rotation_trace s1 rest); reflexivity.
Qed.

(** One iteration, given what its call of read_rotation returned. *)
Lemma poll_step (s : EC11) (a b c now r : Z) (s1 : EC11) :
  read_rotation s a b = Ok (r, s1) ->
  exists out s',
    poll s a b c now = Ok (out, s') /\
    rotation_lines out = filter (fun r => negb (r =? 0)) [r] /\
    button_lines out = length (filter (fun p => p)
                                      [fst (read_button s c now)]) /\
    same_rotation s' s1 /\
    same_button s' (snd (read_button s c now)) /\
    (fst (read_button s c now) = true -> counter s' = 0).
Proof.
  intros H.
  pose proof (read_rotation_returned _ _ _ _ _ H) as Hr.
  pose proof (read_rotation_same_button _ _ _ _ _ H) as Hsb.
  destruct (read_button_same_button s1 s c now Hsb) as [E Hsb'].
  pose proof (read_button_same_rotation s1 c now) as Hsr.
  unfold poll. rewrite H. cbn [bind fst snd]. rewrite E.
  destruct (fst (read_button s c now)); do 2 eexists;
    (split; [reflexivity |]);
    destruct Hr as [-> | [-> | ->]]; simpl;
    repeat split; try apply Hsr; try apply Hsb'; try discriminate.
Qed.

Lemma same_rotation_sym (s s' : EC11) :
  same_rotation s s' -> same_rotation s' s.
Proof. intros [H1 H2]. split; congruence. Qed.

Lemma poll_run_decoupled (readings : list (Z * Z * Z * Z)) :
  forall s,
    wf s ->
    Forall reading_ok readings ->
    exists out s' rs,
      poll_run s readings = Ok (out, s') /\
      wf s' /\
      returns s (map rotation_pins readings) = Ok rs /\
      rotation_lines out = filter (fun r => negb (r =? 0)) rs /\
      button_lines out =
        length (filter (fun p => p)
                       (fst (button_run s (map button_reading readings)))).
Proof.
  induction readings as [| [[[a b] c] now] rest IH]; intros s Hs Hok.
  - exists [], s, []. split; [reflexivity |]. split; [exact Hs |].
    repeat split.
  - inversion Hok as [| x l [Ha Hb] Hrest]; subst. simpl in Ha, Hb.
    destruct (read_rotation_total s a b Hs Ha Hb) as (r & s1 & Hr).
    pose proof (wf_read_rotation s a b r s1 Ha Hb Hr) as Hs1.
    destruct (poll_step s a b c now r s1 Hr)
      as (out1 & s2 & Hp & Hrot & Hbut & Hsr & Hsb & _).
    assert (Hs2 : wf s2) by (unfold wf; rewrite (proj1 Hsr); exact Hs1).
    destruct (IH s2 Hs2 Hrest) as (out2 & s' & rs & Hrun & Hs' & Hret & Hl & Hn).
    exists (out1 ++ out2), s', (r :: rs).
    split; [simpl; rewrite Hp; simpl; rewrite Hrun; reflexivity |].
    split; [exact Hs' |].
    split.
    { change (map rotation_pins ((a, b, c, now) :: rest))
        with ((a, b) :: map rotation_pins rest).
      rewrite (returns_cons _ _ _ _ _ _ Hr).
      rewrite (returns_same_rotation _ s1 s2 (same_rotation_sym _ _ Hsr)).
      rewrite Hret. reflexivity. }
    split.
    { unfold rotation_lines in *. rewrite flat_map_app, Hrot, Hl.
      simpl. destruct (r =? 0); reflexivity. }
    { unfold button_lines in *. rewrite filter_app, length_app, Hbut, Hn.
      change (map button_reading ((a, b, c, now) :: rest))
        with ((c, now) :: map button_reading rest).
      simpl button_run. cbn [fst].
      rewrite (button_run_same_button _ _ _ Hsb).
      simpl. destruct (fst (read_button s c now)); reflexivity. }
Qed.

(** From construction on in-contract rotation pins, the polling loop runs
    any number of iterations on in-contract rotation pins without raising,
    whatever the button pin and the tick counter read, and the remembered
    state stays a 2-bit value. *)
Theorem polling_loop_never_raises (a0 b0 c0 : Z)
        (readings : list (Z * Z * Z * Z)) :
  level a0 ->
  level b0 ->
  Forall reading_ok readings ->
  exists out s',
    poll_run (init a0 b0 c0) readings = Ok (out, s') /\ wf s'.
Proof.
  intros Ha Hb Hok.
  destruct (poll_run_decoupled readings (init a0 b0 c0)
              (wf_init a0 b0 c0 Ha Hb) Hok)
    as (out & s' & _ & Hrun & Hs' & _).
  exists out, s'. split; assumption.
Qed.

Lemma reading_ok_intro (a b c now : Z) :
  level a -> level b -> reading_ok (a, b, c, now).
Proof. intros Ha Hb. split; assumption. Qed.

#[local] Hint Resolve reading_ok_intro : ec11.

Lemma polling_loop_never_raises_witness :
  exists out s',
    poll_run (init 0 0 0)
      [(1, 0, 0, 5); (1, 1, 1, 60); (0, 1, 1, 61); (0, 0, 0, 62)]
      = Ok (out, s') /\ wf s'.
Proof.
  apply (polling_loop_never_raises 0 0 0
           [(1, 0, 0, 5); (1, 1, 1, 60); (0, 1, 1, 61); (0, 0, 0, 62)]);
    in_contract.
Defined.

(** In the loop, rotation and button detection are decoupled: the
    rotation lines printed are the non-zero values read_rotation alone
    returns on the rotation pin readings, in order, and as many button
    lines are printed as read_button alone accepts presses on the button
    readings; the reset of the counter on a press changes neither. *)
Theorem loop_prints_what_the_methods_report (s : EC11)
        (readings : list (Z * Z * Z * Z)) :
  wf s ->
  Forall reading_ok readings ->
  exists out s' rs,
    poll_run s readings = Ok (out, s') /\
    returns s (map rotation_pins readings) = Ok rs /\
    rotation_lines out = filter (fun r => negb (r =? 0)) rs /\
    button_lines out =
      length (filter (fun p => p)
                     (fst (button_run s (map button_reading readings)))).
Proof.
  intros Hs Hok.
  destruct (poll_run_decoupled readings s Hs Hok)
    as (out & s' & rs & Hrun & _ & Hret & Hl & Hn).
  exists out, s', rs. repeat split; assumption.
Qed.

Lemma loop_prints_what_the_methods_report_witness :
  exists out s' rs,
    poll_run (mkEC11 0 0 3 0 0)
      [(1, 0, 1, 70); (1, 1, 0, 71); (1, 1, 1, 72)] = Ok (out, s') /\
    returns (mkEC11 0 0 3 0 0)
      (map rotation_pins [(1, 0, 1, 70); (1, 1, 0, 71); (1, 1, 1, 72)])
      = Ok rs /\
    rotation_lines out = filter (fun r => negb (r =? 0)) rs /\
    button_lines out =
      length (filter (fun p => p)
                (fst (button_run (mkEC11 0 0 3 0 0)
                        (map button_reading
                           [(1, 0, 1, 70); (1, 1, 0, 71); (1, 1, 1, 72)])))).
Proof.
  apply (loop_prints_what_the_methods_report (mkEC11 0 0 3 0 0)
           [(1, 0, 1, 70); (1, 1, 0, 71); (1, 1, 1, 72)]).
  - unfold wf. simpl. lia.
  - in_contract.
Defined.

(** ** How far the counter can move *)

Lemma rotation_trace_reach (ls : list (Z * Z)) :
  forall s tr,
    rotation_trace s ls = Ok tr ->
    Z.abs (counter (final_state s tr) - counter s) <= Z.of_nat (length ls).
Proof.
  induction ls as [| [a b] rest IH]; intros s tr H.
  - simpl in H. injection H as <-. unfold final_state. simpl. lia.
  - apply rotation_trace_inv in H as (d & tr' & Hd & Htr' & ->).
    pose proof (direction_values _ _ _ _ Hd) as Hv.
    pose proof (IH _ _ Htr') as IHr. rewrite outcome_counter in IHr.
    rewrite final_state_cons. simpl post.
    simpl length. rewrite Nat2Z.inj_succ. lia.
Qed.

(** Each call of read_rotation moves the counter by at most one, so after
    n calls on in-contract pin levels the counter is within n of where it
    started. *)
Theorem counter_moves_at_most_one_per_call (s : EC11) (ls : list (Z * Z)) :
  wf s ->
  Forall levels ls ->
  exists tr,
    rotation_trace s ls = Ok tr /\
    Z.abs (get_counter (final_state s tr) - get_counter s)
      <= Z.of_nat (length ls).
Proof.
  intros Hs Hls.
  destruct (rotation_trace_total ls s Hs Hls) as (tr & Htr).
  exists tr. split; [exact Htr |].
  apply (rotation_trace_reach ls s tr Htr).
Qed.

Lemma counter_moves_at_most_one_per_call_witness :
  exists tr,
    rotation_trace (init 1 1 0) [(0, 1); (0, 0); (1, 1)] = Ok tr /\
    Z.abs (get_counter (final_state (init 1 1 0) tr)
           - get_counter (init 1 1 0)) <= 3.
Proof.
  apply (counter_moves_at_most_one_per_call (init 1 1 0)
           [(0, 1); (0, 0); (1, 1)]).
  - auto with ec11.
  - in_contract.
Defined.
